(** * SharpService: a shallow embedding of the image transform service

    The service of [src/resources/processor/services/sharp/sharp.service.ts]
    wraps the sharp codec library.  Every method builds a one-shot pipeline
    on a source buffer, runs it, and translates a thrown error into an
    [InternalServerErrorException].

    The codec itself is not part of the repository: it is a parameter of
    the development (the record [Engine]).  What the service does around it
    -- which pipeline it builds, with which arguments, in which order, what
    it logs, what it writes to the objects it was handed, and what it throws
    -- is modelled from the source, method by method. *)

From Stdlib Require Import Floats.SpecFloat ZArith.
From stdpp Require Import base option list strings gmap.

Local Open Scope string_scope.
Local Open Scope list_scope.

(** ** JavaScript values *)

(** A JavaScript [number] is an IEEE-754 binary64 value. *)
Definition number : Type := spec_float.

Definition prec : Z := 53.
Definition emax : Z := 1024.

(** The double that an integer literal denotes. *)
Definition num_of_Z (z : Z) : number :=
  binary_normalize prec emax z 0 false.

(** The literal [0.3]: the double nearest to 3/10. *)
Definition num_0_3 : number :=
  Eval cbv in SFdiv prec emax (num_of_Z 3) (num_of_Z 10).

#[global] Instance number_eq_dec : EqDecision number.
Proof. unfold number. solve_decision. Defined.

(** [ToBoolean] on a number: [+0], [-0] and [NaN] are falsy. *)
Definition truthy (x : number) : bool :=
  match x with
  | S754_zero _ | S754_nan => false
  | S754_infinity _ | S754_finite _ _ _ => true
  end.

(** [x || d] where [x] is a possibly absent number. *)
Definition num_or (x : option number) (d : number) : number :=
  match x with
  | Some v => if truthy v then v else d
  | None => d
  end.

(** [x || false] where [x] is a possibly absent boolean. *)
Definition bool_or_false (x : option bool) : bool :=
  match x with
  | Some b => b
  | None => false
  end.

(** A [Buffer] is a byte sequence; the service never looks inside one. *)
Definition Buffer : Type := list Byte.byte.

(** A thrown [Error]: its [name] and its [message]. *)
Record JsError := { name : string; message : string }.

(** [new InternalServerErrorException(objectOrError, description)]: an
    exception is known by the two arguments it was built from.  What it
    shows to the outside, its response body and its [message], is computed
    from them by the framework ([createBody] and [exception_message]
    below). *)
Record InternalServerErrorException :=
  { objectOrError : string; description : string }.

(** The response body of an exception with a string argument. *)
Record HttpExceptionBody := {
  body_message : string;
  body_error : option string;
  statusCode : Z
}.

(** [HttpException.createBody(objectOrError, description, statusCode)] of
    the framework: an empty first argument is falsy, and the body is then
    [{ message: description, statusCode }], with no [error] field;
    otherwise it is [{ message: objectOrError, error: description,
    statusCode }]. *)
Definition createBody (arg0 arg1 : string) (code : Z) : HttpExceptionBody :=
  match arg0 with
  | "" => {| body_message := arg1; body_error := None; statusCode := code |}
  | _ => {| body_message := arg0; body_error := Some arg1;
            statusCode := code |}
  end.

Definition getResponse (e : InternalServerErrorException) : HttpExceptionBody :=
  createBody (objectOrError e) (description e) 500.

(** The [message] property of the exception: the [message] of its body. *)
Definition exception_message (e : InternalServerErrorException) : string :=
  body_message (getResponse e).

(** What a [catch (error)] clause can receive here: an error raised by the
    codec (or by the runtime), or an exception raised by a nested call of
    the service itself. *)
Inductive Thrown :=
| ThrownError (e : JsError)
| ThrownHttp (e : InternalServerErrorException).

(** [error.message] *)
Definition thrown_message (t : Thrown) : string :=
  match t with
  | ThrownError e => message e
  | ThrownHttp e => exception_message e
  end.

Definition thrown_name (t : Thrown) : string :=
  match t with
  | ThrownError e => name e
  | ThrownHttp _ => "InternalServerErrorException"
  end.

(** The interpolation [${error}], that is [Error.prototype.toString]. *)
Definition thrown_toString (t : Thrown) : string :=
  match thrown_name t, thrown_message t with
  | n, "" => n
  | "", m => m
  | n, m => n +:+ ": " +:+ m
  end.

Inductive Result (A : Type) :=
| Ok (a : A)
| Err (e : Thrown).
Arguments Ok {A} a.
Arguments Err {A} e.

(** ** The option records of sharp that the service passes along *)

Inductive Color :=
| ColorName (s : string)
| ColorRGBA (r g b alpha : option number).

Inductive Position :=
| PosNum (n : number)
| PosStr (s : string).

(** [sharp.ResizeOptions], also the type of [resizeProperties.options]. *)
Record ResizeOptions := {
  ro_width : option number;
  ro_height : option number;
  ro_fit : option string;
  ro_position : option Position;
  ro_background : option Color;
  ro_kernel : option string;
  ro_withoutEnlargement : option bool;
  ro_withoutReduction : option bool;
  ro_fastShrinkOnLoad : option bool
}.

(** The encoder options accepted by [toFormat]. *)
Record FormatOptions := {
  fo_quality : option number;
  fo_progressive : option bool;
  fo_compressionLevel : option number;
  fo_lossless : option bool
}.

Record RotateOptions := { rot_background : option Color }.

(** The rectangle given to [extract]. *)
Record Region := {
  left : number;
  top : number;
  width : number;
  height : number
}.

Inductive OverlayInput :=
| InputBuffer (b : Buffer)
| InputPath (p : string).

(** [sharp.OverlayOptions] *)
Record OverlayOptions := {
  input : option OverlayInput;
  blend : option string;
  gravity : option Position;
  ov_top : option number;
  ov_left : option number;
  tile : option bool;
  premultiplied : option bool;
  density : option number
}.

(** The assignment [o.input = v] on an overlay record. *)
Definition set_input (v : OverlayInput) (o : OverlayOptions) : OverlayOptions :=
  {| input := Some v; blend := blend o; gravity := gravity o;
     ov_top := ov_top o; ov_left := ov_left o; tile := tile o;
     premultiplied := premultiplied o; density := density o |}.

(** What [metadata()] resolves to (the fields read anywhere in the service,
    and the ones that identify an image). *)
Record Metadata := {
  md_format : option string;
  md_width : option number;
  md_height : option number;
  md_channels : option number;
  md_hasAlpha : option bool
}.

Record Stats := {
  st_isOpaque : bool;
  st_entropy : number;
  st_sharpness : number
}.

(** What [toFile] resolves to. *)
Record OutputInfo := {
  oi_format : string;
  oi_size : number;
  oi_width : number;
  oi_height : number;
  oi_channels : number
}.

(** ** Pipelines *)

(** One chained call on a sharp instance, with the arguments the service
    gives it. *)
Inductive PipelineOp :=
| OpToFormat (format : string) (options : option FormatOptions)
| OpResize (w h : option number)
| OpResizeWith (options : ResizeOptions)
| OpExtract (region : Region)
| OpRotate (angle : option number) (options : option RotateOptions)
| OpFlip
| OpFlop
| OpThreshold (t : number) (grayscale : bool)
| OpMedian (size : number)
| OpBlur (sigma : number)
| OpNegate (b : bool)
| OpGrayscale (b : bool)
| OpModulate (brightness saturation hue lightness : number)
| OpTint (c : option Color)
| OpTrim (threshold : number)
| OpFlatten (background : option Color)
| OpPng
| OpComposite (images : list OverlayOptions).

(** The file system, as far as [toFile] and path inputs are concerned. *)
Abbreviation FileSystem := (gmap string Buffer).

(** The codec: what running a pipeline yields.  [toBuffer b ops] stands for
    [sharp(b).op1(..)...opn(..).toBuffer()]. *)
Record Engine := {
  metadata : Buffer -> Result Metadata;
  stats : Buffer -> Result Stats;
  toBuffer : Buffer -> list PipelineOp -> Result Buffer;
  toBufferFromPath : FileSystem -> string -> list PipelineOp -> Result Buffer;
  toFile : Buffer -> string -> FileSystem -> Result OutputInfo * FileSystem
}.

(** ** The world a call runs in *)

Inductive LogLevel := LDebug | LError.

Inductive EngineCall :=
| CallMetadata (b : Buffer)
| CallStats (b : Buffer)
| CallToBuffer (b : Buffer) (ops : list PipelineOp)
| CallToBufferFromPath (p : string) (ops : list PipelineOp)
| CallToFile (b : Buffer) (p : string).

(** Objects handed to the service by reference live in a heap. *)
Definition loc : Type := positive.

(** What a call can leave behind, in the order it happened: a logger line,
    a call of the codec, an assignment to the [input] field of an object. *)
Inductive Event :=
| EvLog (lvl : LogLevel) (msg : string)
| EvCall (c : EngineCall)
| EvSetInput (l : loc) (v : OverlayInput).

Record World := {
  heap : gmap loc OverlayOptions;
  files : FileSystem;
  events : list Event
}.

Definition emit (e : Event) (w : World) : World :=
  {| heap := heap w; files := files w; events := events w ++ [e] |}.

(** ** Asynchronous methods as state-and-exception computations *)

Definition M (A : Type) : Type := World -> Result A * World.

Definition ret {A} (a : A) : M A := fun w => (Ok a, w).

Definition throw {A} (t : Thrown) : M A := fun w => (Err t, w).

Definition bind {A B} (m : M A) (k : A -> M B) : M B :=
  fun w =>
    match m w with
    | (Ok a, w') => k a w'
    | (Err t, w') => (Err t, w')
    end.

Notation "'await' x <- m ; k" := (bind m (fun x => k))
  (at level 10, x name, m at level 100, k at level 200,
   format "'[v' 'await'  x  <-  m ; '/' k ']'").
Notation "'run' m ; k" := (bind m (fun _ => k))
  (at level 10, m at level 100, k at level 200,
   format "'[v' 'run'  m ; '/' k ']'").

(** [try { body } catch (error) { handler }] *)
Definition try_catch {A} (body : M A) (handler : Thrown -> M A) : M A :=
  fun w =>
    match body w with
    | (Ok a, w') => (Ok a, w')
    | (Err t, w') => handler t w'
    end.

Definition log (lvl : LogLevel) (msg : string) : M unit :=
  fun w => (Ok tt, emit (EvLog lvl msg) w).

(** Awaiting a codec call that does not touch the file system. *)
Definition call {A} (c : EngineCall) (r : Result A) : M A :=
  fun w => (r, emit (EvCall c) w).

(** The catch clause every method ends with:
    [this.logger.error(`${summary}: ${error}`);
     throw new InternalServerErrorException(error.message, summary)]. *)
Definition rethrow {A} (summary : string) (error : Thrown) : M A :=
  run log LError (summary +:+ ": " +:+ thrown_toString error);
  throw (ThrownHttp {| objectOrError := thrown_message error;
                       description := summary |}).

(** The assignment [o.input = v] where [o] is the object at [l].  When
    nothing lives at [l] the caller passed [undefined], and the assignment
    raises a [TypeError]. *)
Definition assign_input (l : loc) (v : OverlayInput) : M unit :=
  fun w =>
    match heap w !! l with
    | Some o =>
        (Ok tt, emit (EvSetInput l v)
                  {| heap := <[l := set_input v o]> (heap w);
                     files := files w; events := events w |})
    | None =>
        (Err (ThrownError
                {| name := "TypeError";
                   message := "Cannot set properties of undefined (setting 'input')" |}),
         w)
    end.

(** Reading the object at [l], as the codec does when it is handed the
    reference. *)
Definition deref (l : loc) : M OverlayOptions :=
  fun w =>
    match heap w !! l with
    | Some o => (Ok o, w)
    | None =>
        (Err (ThrownError
                {| name := "TypeError";
                   message := "Cannot read properties of undefined" |}),
         w)
    end.

(** ** The option records declared by the service's own signatures *)

Record ConvertProperties := {
  cp_format : string;
  cp_options : option FormatOptions
}.

Record ResizeProperties := {
  rp_width : option number;
  rp_height : option number;
  rp_options : option ResizeOptions
}.

Record RotateProperties := {
  rt_angle : option number;
  rt_options : option RotateOptions
}.

(** Declared with mandatory fields, but read with [||] fallbacks: a field
    may be missing at run time. *)
Record EffectsProperties := {
  median : option number;
  blur : option number;
  negate : option bool;
  grayscale : option bool;
  threshold : option number;
  thresholdGrayscale : option bool;
  brightness : option number;
  saturation : option number;
  hue : option number;
  lightness : option number;
  tint : option Color
}.

(** ** The service *)

Section SharpService.

Variable eng : Engine.

Definition getMetadata (imageBuffer : Buffer) : M Metadata :=
  try_catch
    (run log LDebug "getting image metadata";
     call (CallMetadata imageBuffer) (metadata eng imageBuffer))
    (rethrow "Error getting image metadata").

Definition getStats (imageBuffer : Buffer) : M Stats :=
  try_catch
    (run log LDebug "getting image stats";
     call (CallStats imageBuffer) (stats eng imageBuffer))
    (rethrow "Error getting image stats").

Definition storeImage (imageBuffer : Buffer) (path imageName : string)
  : M OutputInfo :=
  try_catch
    (run log LDebug ("storing image: " +:+ imageName);
     fun w =>
       let dest := path +:+ "/" +:+ imageName in
       let '(r, fs') := toFile eng imageBuffer dest (files w) in
       (r, emit (EvCall (CallToFile imageBuffer dest))
             {| heap := heap w; files := fs'; events := events w |}))
    (rethrow "Error storing image").

Definition from_path (imagePath : string) (ops : list PipelineOp) : M Buffer :=
  fun w =>
    (toBufferFromPath eng (files w) imagePath ops,
     emit (EvCall (CallToBufferFromPath imagePath ops)) w).

Definition convertFormat (imagePath : string)
    (convertProperties : ConvertProperties) : M Buffer :=
  try_catch
    (run log LDebug ("convert image: " +:+ imagePath +:+ " to "
                     +:+ cp_format convertProperties);
     match cp_options convertProperties with
     | Some options =>
         from_path imagePath
           [OpToFormat (cp_format convertProperties) (Some options)]
     | None =>
         from_path imagePath [OpToFormat (cp_format convertProperties) None]
     end)
    (rethrow "Error converting image").

Definition resizeImage (imageBuffer : Buffer)
    (resizeProperties : ResizeProperties) : M Buffer :=
  try_catch
    (run log LDebug "resizing image";
     let ops := [OpResize (rp_width resizeProperties)
                          (rp_height resizeProperties)] in
     call (CallToBuffer imageBuffer ops) (toBuffer eng imageBuffer ops))
    (rethrow "Error converting image").

Definition getImageBuffer (imagePath : string) : M Buffer :=
  try_catch
    (run log LDebug "getting image buffer";
     from_path imagePath [])
    (rethrow "Error getting image buffer").

Definition cropImage (imageBuffer : Buffer) (cropProperties : Region)
  : M Buffer :=
  try_catch
    (run log LDebug "cropping image";
     let ops := [OpExtract cropProperties] in
     call (CallToBuffer imageBuffer ops) (toBuffer eng imageBuffer ops))
    (rethrow "Error cropping image").

Definition rotateImage (imageBuffer : Buffer)
    (rotateProperties : RotateProperties) : M Buffer :=
  try_catch
    (run log LDebug "rotating image";
     let ops := [OpRotate (rt_angle rotateProperties)
                          (rt_options rotateProperties)] in
     call (CallToBuffer imageBuffer ops) (toBuffer eng imageBuffer ops))
    (rethrow "Error rotating image").

Definition verticalFlipImage (imageBuffer : Buffer) : M Buffer :=
  try_catch
    (run log LDebug "flipping image vertical";
     call (CallToBuffer imageBuffer [OpFlip]) (toBuffer eng imageBuffer [OpFlip]))
    (rethrow "Error flipping image vertical").

Definition horizontalFlipImage (imageBuffer : Buffer) : M Buffer :=
  try_catch
    (run log LDebug "flipping image vertical";
     call (CallToBuffer imageBuffer [OpFlop]) (toBuffer eng imageBuffer [OpFlop]))
    (rethrow "Error flipping image vertical").

(** The pre-pass of [setImageEffects]: [.threshold(t || 120, {grayscale})]. *)
Definition threshold_ops (effectsProperties : EffectsProperties)
  : list PipelineOp :=
  [OpThreshold (num_or (threshold effectsProperties) (num_of_Z 120))
               (bool_or_false (thresholdGrayscale effectsProperties))].

(** The main chain of [setImageEffects]. *)
Definition effects_ops (effectsProperties : EffectsProperties)
  : list PipelineOp :=
  [OpMedian (num_or (median effectsProperties) (num_of_Z 3));
   OpBlur (num_or (blur effectsProperties) num_0_3);
   OpNegate (bool_or_false (negate effectsProperties));
   OpGrayscale (bool_or_false (grayscale effectsProperties));
   OpModulate (num_or (brightness effectsProperties) (num_of_Z 1))
              (num_or (saturation effectsProperties) (num_of_Z 1))
              (num_or (hue effectsProperties) (num_of_Z 0))
              (num_or (lightness effectsProperties) (num_of_Z 1));
   OpTint (tint effectsProperties)].

(** [if (effectsProperties.threshold)] *)
Definition threshold_given (effectsProperties : EffectsProperties) : bool :=
  match threshold effectsProperties with
  | Some t => truthy t
  | None => false
  end.

Definition setImageEffects (imageBuffer : Buffer)
    (effectsProperties : EffectsProperties) : M Buffer :=
  try_catch
    (run log LDebug "applying image effects";
     await imageBuffer <-
       (if threshold_given effectsProperties
        then call (CallToBuffer imageBuffer (threshold_ops effectsProperties))
               (toBuffer eng imageBuffer (threshold_ops effectsProperties))
        else ret imageBuffer);
     call (CallToBuffer imageBuffer (effects_ops effectsProperties))
       (toBuffer eng imageBuffer (effects_ops effectsProperties)))
    (rethrow "Error applying image effects").

Definition trimImage (imageBuffer : Buffer) (trimLevel : option number)
  : M Buffer :=
  try_catch
    (run log LDebug "trim image";
     let ops := [OpTrim (num_or trimLevel (num_of_Z 10))] in
     call (CallToBuffer imageBuffer ops) (toBuffer eng imageBuffer ops))
    (rethrow "Error trim image").

Definition setTransparencyBackgroundColor (imageBuffer : Buffer)
    (transparencyBackgroundColor : option Color) : M Buffer :=
  try_catch
    (run log LDebug "setting transparency background color";
     let ops := [OpFlatten transparencyBackgroundColor] in
     call (CallToBuffer imageBuffer ops) (toBuffer eng imageBuffer ops))
    (rethrow "Error setting transparency background color").

(** The options literal of the resize inside [composeImages]:
    [{ width: image2Width, height: image2Height, position: 'centre' }]. *)
Definition centre_resize (image2Width image2Height : option number)
  : ResizeOptions :=
  {| ro_width := image2Width; ro_height := image2Height;
     ro_fit := None; ro_position := Some (PosStr "centre");
     ro_background := None; ro_kernel := None;
     ro_withoutEnlargement := None; ro_withoutReduction := None;
     ro_fastShrinkOnLoad := None |}.

Definition composeImages (imageBuffer1 imageBuffer2 : Buffer)
    (compositeOptions : loc) : M Buffer :=
  try_catch
    (run log LDebug "composing images";
     await imageBuffer1 <-
       call (CallToBuffer imageBuffer1 [OpPng])
         (toBuffer eng imageBuffer1 [OpPng]);
     await md <- getMetadata imageBuffer2;
     let image2Width := md_width md in
     let image2Height := md_height md in
     await imageBuffer1 <-
       (let ops := [OpResizeWith (centre_resize image2Width image2Height)] in
        call (CallToBuffer imageBuffer1 ops) (toBuffer eng imageBuffer1 ops));
     run assign_input compositeOptions (InputBuffer imageBuffer2);
     await overlay <- deref compositeOptions;
     let ops := [OpComposite [overlay]] in
     call (CallToBuffer imageBuffer1 ops) (toBuffer eng imageBuffer1 ops))
    (rethrow "Error composing images").

End SharpService.

(** ** Observing a call *)

(** What a call appended to the event list of the world it started in. *)
Definition new_events (before after : World) : list Event :=
  drop (length (events before)) (events after).

(** The codec calls among a list of events, in order. *)
Definition engine_calls (evs : list Event) : list EngineCall :=
  omap (fun e => match e with EvCall c => Some c | _ => None end) evs.

(** How a result of the codec surfaces at the boundary of the method whose
    catch clause carries [summary]. *)
Definition surfaced {A} (summary : string) (r : Result A) : Result A :=
  match r with
  | Ok a => Ok a
  | Err t => Err (ThrownHttp {| objectOrError := thrown_message t;
                                description := summary |})
  end.






(** Nothing the caller can reach has changed between [w] and [w']: the
    same objects with the same fields, the same files. *)
Definition untouched (w w' : World) : Prop :=
  heap w' = heap w /\ files w' = files w.

(** ** What is assumed of the codec

    The codec is outside the repository; the properties below are the parts
    of sharp's documented behaviour that a claim about the service's output
    rests on.  Each is a predicate on an [Engine]; a theorem that needs one
    takes it as a hypothesis. *)

(** The buffer [b] decodes to an image of [w] by [h] pixels. *)
Definition has_dimensions (eng : Engine) (b : Buffer) (w h : number) : Prop :=
  exists md, metadata eng b = Ok md /\ md_width md = Some w
             /\ md_height md = Some h.

(** The buffer [b] is encoded in the container format [f]. *)
Definition has_format (eng : Engine) (b : Buffer) (f : string) : Prop :=
  exists md, metadata eng b = Ok md /\ md_format md = Some f.

(** A resize to a given width and height under the default fit yields an
    image of exactly that width and height. *)
Definition resize_yields_dimensions (eng : Engine) : Prop :=
  forall b w h out,
    toBuffer eng b [OpResizeWith (centre_resize (Some w) (Some h))] = Ok out ->
    has_dimensions eng out w h.

(** A composite has the dimensions of its base image. *)
Definition composite_keeps_dimensions (eng : Engine) : Prop :=
  forall b images out w h,
    toBuffer eng b [OpComposite images] = Ok out ->
    has_dimensions eng b w h ->
    has_dimensions eng out w h.

(** [.png()] yields a PNG. *)
Definition png_yields_png (eng : Engine) : Prop :=
  forall b out, toBuffer eng b [OpPng] = Ok out -> has_format eng out "png".

(** A resize or a composite of a PNG, with no output format set, yields a
    PNG. *)
Definition png_is_kept (eng : Engine) : Prop :=
  (forall b options out,
     toBuffer eng b [OpResizeWith options] = Ok out ->
     has_format eng b "png" ->
     has_format eng out "png")
  /\ (forall b images out,
        toBuffer eng b [OpComposite images] = Ok out ->
        has_format eng b "png" ->
        has_format eng out "png").

Definition num_add (x y : number) : number := SFadd prec emax x y.

(** The rectangle [r] does not lie within an image of [w] by [h] pixels. *)
Definition exceeds (w h : number) (r : Region) : bool :=
  SFltb w (num_add (left r) (width r))
  || SFltb h (num_add (top r) (height r))
  || SFltb (left r) (num_of_Z 0)
  || SFltb (top r) (num_of_Z 0).

(** The codec refuses to extract a rectangle that exceeds the image. *)
Definition extract_checks_bounds (eng : Engine) : Prop :=
  forall b w h r,
    has_dimensions eng b w h ->
    exceeds w h r = true ->
    exists e, toBuffer eng b [OpExtract r] = Err e.

(** A raster: the rows of an image, top to bottom, each left to right. *)
Definition Raster : Type := list (list Byte.byte).

(** [flip] mirrors about the horizontal axis and [flop] about the vertical
    one, on every image the decoder [pixels] accepts, without loss. *)
Definition mirrors_exactly (eng : Engine) (pixels : Buffer -> option Raster)
  : Prop :=
  forall b rows,
    pixels b = Some rows ->
    (exists out, toBuffer eng b [OpFlip] = Ok out
                 /\ pixels out = Some (rev rows))
    /\ (exists out, toBuffer eng b [OpFlop] = Ok out
                    /\ pixels out = Some (map (@rev Byte.byte) rows)).

(** ** A reference codec

    A small codec for an uncompressed bitmap format, used to run the service
    on concrete inputs and to show that the assumptions above can be met
    together.  A bitmap is a format byte ([x00] for png, [x01] for jpeg), a
    width byte, a height byte, and width * height pixel bytes, row by row. *)

Module Bitmap.

Import Byte.

Record Raw := {
  fmt : byte;
  cols : byte;
  lines : byte;
  data : list byte
}.

Definition nat_of_byte (b : byte) : nat := N.to_nat (Byte.to_N b).

Definition num_of_byte (b : byte) : number := num_of_Z (Z.of_N (Byte.to_N b)).

Definition all_bytes : list byte :=
  omap (fun n => Byte.of_N (N.of_nat n)) (seq 0 256).

(** The byte whose value is the number [x], when there is one. *)
Definition byte_of_num (x : number) : option byte :=
  List.find (fun b => bool_decide (num_of_byte b = x)) all_bytes.

Definition fmt_name (f : byte) : option string :=
  match f with
  | x00 => Some "png"
  | x01 => Some "jpeg"
  | _ => None
  end.

Definition fmt_code (s : string) : option byte :=
  if decide (s = "png") then Some x00
  else if decide (s = "jpeg") then Some x01
  else None.

Definition failure {A} (msg : string) : Result A :=
  Err (ThrownError {| name := "Error"; message := msg |}).

(** Reading the header. *)
Definition header (b : Buffer) : Result Raw :=
  match b with
  | f :: w :: h :: d =>
      match fmt_name f with
      | Some _ => Ok {| fmt := f; cols := w; lines := h; data := d |}
      | None => failure "Input buffer contains unsupported image format"
      end
  | _ => failure "Input buffer contains unsupported image format"
  end.

(** Reading the whole image: the pixel data must be complete. *)
Definition decode (b : Buffer) : Result Raw :=
  match header b with
  | Ok r =>
      if decide (length (data r) = nat_of_byte (cols r) * nat_of_byte (lines r))
      then Ok r
      else failure "Input buffer has corrupt header"
  | Err e => Err e
  end.

Definition encode (r : Raw) : Buffer :=
  fmt r :: cols r :: lines r :: data r.

(** [n] rows of [w] pixels each, cut from the front of [d]. *)
Fixpoint chunks (w n : nat) (d : list byte) : Raster :=
  match n with
  | O => []
  | S n' => take w d :: chunks w n' (drop w d)
  end.

Definition rows (r : Raw) : Raster :=
  chunks (nat_of_byte (cols r)) (nat_of_byte (lines r)) (data r).

Definition with_rows (r : Raw) (rs : Raster) : Raw :=
  {| fmt := fmt r; cols := cols r; lines := lines r; data := concat rs |}.

Definition pixels (b : Buffer) : option Raster :=
  match decode b with
  | Ok r => Some (rows r)
  | Err _ => None
  end.

(** Nearest-neighbour resampling to [w] by [h]. *)
Definition resample (r : Raw) (w h : byte) : Raw :=
  let rs := rows r in
  let px (x y : nat) :=
    nth (x * nat_of_byte (cols r) / nat_of_byte w)
        (nth (y * nat_of_byte (lines r) / nat_of_byte h) rs []) x00 in
  {| fmt := fmt r; cols := w; lines := h;
     data := flat_map (fun y => map (fun x => px x y) (seq 0 (nat_of_byte w)))
                      (seq 0 (nat_of_byte h)) |}.

Definition resize (ow oh : option number) (r : Raw) : Result Raw :=
  let dim (o : option number) (current : byte) :=
    match o with
    | Some x => byte_of_num x
    | None => Some current
    end in
  match dim ow (cols r), dim oh (lines r) with
  | Some w, Some h => Ok (resample r w h)
  | _, _ => failure "Expected positive integer for width or height"
  end.

Definition extract (reg : Region) (r : Raw) : Result Raw :=
  if exceeds (num_of_byte (cols r)) (num_of_byte (lines r)) reg
  then failure "extract_area: bad extract area"
  else
    match byte_of_num (left reg), byte_of_num (top reg),
          byte_of_num (width reg), byte_of_num (height reg) with
    | Some l, Some t, Some w, Some h =>
        Ok {| fmt := fmt r; cols := w; lines := h;
              data := concat (map (fun row => take (nat_of_byte w)
                                                (drop (nat_of_byte l) row))
                              (take (nat_of_byte h)
                                 (drop (nat_of_byte t) (rows r)))) |}
    | _, _, _, _ => failure "Expected integer for extract region"
    end.

(** One row laid over another, from the left; a zero pixel is transparent. *)
Fixpoint over_row (o b : list byte) : list byte :=
  match o, b with
  | x :: o', y :: b' =>
      (if Byte.eqb x x00 then y else x) :: over_row o' b'
  | _, _ => b
  end.

Fixpoint over_rows (o b : Raster) : Raster :=
  match o, b with
  | x :: o', y :: b' => over_row x y :: over_rows o' b'
  | _, _ => b
  end.

Definition overlay (ov : OverlayOptions) (r : Raw) : Result Raw :=
  match input ov with
  | Some (InputBuffer ob) =>
      match decode ob with
      | Ok o =>
          if decide (nat_of_byte (cols o) <= nat_of_byte (cols r)
                     /\ nat_of_byte (lines o) <= nat_of_byte (lines r))
          then Ok (with_rows r (over_rows (rows o) (rows r)))
          else failure "Image to composite must have same dimensions or smaller"
      | Err e => Err e
      end
  | _ => failure "Missing input for composite"
  end.

Fixpoint overlays (ovs : list OverlayOptions) (r : Raw) : Result Raw :=
  match ovs with
  | [] => Ok r
  | ov :: ovs' =>
      match overlay ov r with
      | Ok r' => overlays ovs' r'
      | Err e => Err e
      end
  end.

Definition apply_op (op : PipelineOp) (r : Raw) : Result Raw :=
  match op with
  | OpPng =>
      Ok {| fmt := x00; cols := cols r; lines := lines r; data := data r |}
  | OpToFormat f _ =>
      match fmt_code f with
      | Some c =>
          Ok {| fmt := c; cols := cols r; lines := lines r; data := data r |}
      | None => failure "Unsupported output format"
      end
  | OpResize w h => resize w h r
  | OpResizeWith o => resize (ro_width o) (ro_height o) r
  | OpExtract reg => extract reg r
  | OpFlip => Ok (with_rows r (rev (rows r)))
  | OpFlop => Ok (with_rows r (map (@rev byte) (rows r)))
  | OpComposite ovs => overlays ovs r
  | _ => Ok r
  end.

Fixpoint apply_ops (ops : list PipelineOp) (r : Raw) : Result Raw :=
  match ops with
  | [] => Ok r
  | op :: ops' =>
      match apply_op op r with
      | Ok r' => apply_ops ops' r'
      | Err e => Err e
      end
  end.

Definition run_pipeline (b : Buffer) (ops : list PipelineOp) : Result Buffer :=
  match decode b with
  | Ok r =>
      match apply_ops ops r with
      | Ok r' => Ok (encode r')
      | Err e => Err e
      end
  | Err e => Err e
  end.

Definition read_metadata (b : Buffer) : Result Metadata :=
  match header b with
  | Ok r =>
      Ok {| md_format := fmt_name (fmt r);
            md_width := Some (num_of_byte (cols r));
            md_height := Some (num_of_byte (lines r));
            md_channels := Some (num_of_Z 1);
            md_hasAlpha := Some false |}
  | Err e => Err e
  end.

Definition read_stats (b : Buffer) : Result Stats :=
  match decode b with
  | Ok r =>
      Ok {| st_isOpaque := true; st_entropy := num_of_Z 0;
            st_sharpness := num_of_Z 0 |}
  | Err e => Err e
  end.

Definition write_file (b : Buffer) (p : string) (fs : FileSystem)
  : Result OutputInfo * FileSystem :=
  match decode b with
  | Ok r =>
      (Ok {| oi_format := default "" (fmt_name (fmt r));
             oi_size := num_of_Z (Z.of_nat (length b));
             oi_width := num_of_byte (cols r);
             oi_height := num_of_byte (lines r);
             oi_channels := num_of_Z 1 |},
       <[p := b]> fs)
  | Err e => (Err e, fs)
  end.

Definition read_file (fs : FileSystem) (p : string) (ops : list PipelineOp)
  : Result Buffer :=
  match fs !! p with
  | Some b => run_pipeline b ops
  | None => failure "Input file is missing"
  end.

Definition codec : Engine :=
  {| metadata := read_metadata;
     stats := read_stats;
     toBuffer := run_pipeline;
     toBufferFromPath := read_file;
     toFile := write_file |}.

(** Sample images: a 2 by 2 jpeg, a 3 by 1 png, and an overlay record whose
    [input] the caller left unset. *)
Definition imageA : Buffer :=
  [x01; x02; x02; x0a; x14; x1e; x28].

Definition imageB : Buffer :=
  [x00; x03; x01; x07; x00; x09].

Definition plain_overlay : OverlayOptions :=
  {| input := None; blend := Some "over"; gravity := None;
     ov_top := None; ov_left := None; tile := None;
     premultiplied := None; density := None |}.

Definition world0 : World :=
  {| heap := {[ 1%positive := plain_overlay ]}; files := ∅; events := [] |}.

(** The same codec with a lossy jpeg encoder: when the image it writes is a
    jpeg, every pixel is rounded down to a multiple of four.  Png output is
    written as it is. *)
Definition quantise (b : byte) : byte :=
  default b (Byte.of_N (4 * (Byte.to_N b / 4))).

Definition lossy_encode (r : Raw) : Buffer :=
  if Byte.eqb (fmt r) x01
  then encode {| fmt := fmt r; cols := cols r; lines := lines r;
                 data := map quantise (data r) |}
  else encode r.

Definition lossy_pipeline (b : Buffer) (ops : list PipelineOp)
  : Result Buffer :=
  match decode b with
  | Ok r =>
      match apply_ops ops r with
      | Ok r' => Ok (lossy_encode r')
      | Err e => Err e
      end
  | Err e => Err e
  end.

Definition lossy_codec : Engine :=
  {| metadata := read_metadata;
     stats := read_stats;
     toBuffer := lossy_pipeline;
     toBufferFromPath := fun fs p ops =>
       match fs !! p with
       | Some b => lossy_pipeline b ops
       | None => failure "Input file is missing"
       end;
     toFile := write_file |}.

(** The rows of a png; no other format is accepted. *)
Definition png_pixels (b : Buffer) : option Raster :=
  match decode b with
  | Ok r => if Byte.eqb (fmt r) x00 then Some (rows r) else None
  | Err _ => None
  end.

(** The pixels of [imageA], as a png. *)
Definition imageC : Buffer :=
  [x00; x02; x02; x0a; x14; x1e; x28].

End Bitmap.

(** The events of a composition that ran to its end. *)
Definition compose_events (l : loc) (A B A1 A2 : Buffer) (md : Metadata)
    (opts : OverlayOptions) : list Event :=
  [EvLog LDebug "composing images";
   EvCall (CallToBuffer A [OpPng]);
   EvLog LDebug "getting image metadata";
   EvCall (CallMetadata B);
   EvCall (CallToBuffer A1
             [OpResizeWith (centre_resize (md_width md) (md_height md))]);
   EvSetInput l (InputBuffer B);
   EvCall (CallToBuffer A2 [OpComposite [set_input (InputBuffer B) opts]])].

(** A codec on which every call fails with the error [e]. *)
Definition broken_engine (e : JsError) : Engine :=
  {| metadata := fun _ => Err (ThrownError e);
     stats := fun _ => Err (ThrownError e);
     toBuffer := fun _ _ => Err (ThrownError e);
     toBufferFromPath := fun _ _ _ => Err (ThrownError e);
     toFile := fun _ _ fs => (Err (ThrownError e), fs) |}.

(** ** Reading the log *)






(** * Properties *)

(** ** Running a method by hand *)

Ltac unfold_service :=
  unfold composeImages, setImageEffects, getMetadata, getStats, storeImage,
    convertFormat, resizeImage, getImageBuffer, cropImage, rotateImage,
    verticalFlipImage, horizontalFlipImage, trimImage,
    setTransparencyBackgroundColor, from_path, assign_input, deref,
    rethrow, try_catch, bind, call, log, throw, ret, emit.

Ltac norm_events :=
  cbn [heap files events fst snd];
  repeat rewrite <- app_assoc;
  cbn [app].

Ltac frame :=
  unfold_service; cbn [fst snd heap files events];
  repeat match goal with
  | |- context [match ?x with _ => _ end] =>
      destruct x eqn:?; cbn [fst snd heap files events]
  end;
  try (split; reflexivity); try reflexivity.

Lemma new_events_app w w' evs :
  events w' = events w ++ evs -> new_events w w' = evs.
Proof.
  intros E. unfold new_events. rewrite E. apply drop_app_length.
Qed.

Lemma surfaced_not_raw {A} summary (r : Result A) e :
  surfaced summary r <> Err (ThrownError e).
Proof. destruct r; discriminate. Qed.

(** A method that makes one codec call on a buffer: it logs, calls, and
    surfaces the result under its summary. *)
Lemma one_call_spec (eng : Engine) start summary b ops w :
  try_catch
    (run log LDebug start;
     call (CallToBuffer b ops) (toBuffer eng b ops))
    (rethrow summary) w
  = (surfaced summary (toBuffer eng b ops),
     {| heap := heap w; files := files w;
        events := events w ++
          EvLog LDebug start :: EvCall (CallToBuffer b ops) ::
          match toBuffer eng b ops with
          | Ok _ => []
          | Err t => [EvLog LError (summary +:+ ": " +:+ thrown_toString t)]
          end |}).
Proof.
  unfold_service. simpl.
  destruct (toBuffer eng b ops); norm_events; reflexivity.
Qed.

(** ** Composition *)

Lemma composeImages_run eng A B l opts w A1 md A2 out :
  heap w !! l = Some opts ->
  toBuffer eng A [OpPng] = Ok A1 ->
  metadata eng B = Ok md ->
  toBuffer eng A1
    [OpResizeWith (centre_resize (md_width md) (md_height md))] = Ok A2 ->
  toBuffer eng A2 [OpComposite [set_input (InputBuffer B) opts]] = Ok out ->
  composeImages eng A B l w
  = (Ok out,
     {| heap := <[l := set_input (InputBuffer B) opts]> (heap w);
        files := files w;
        events := events w ++ compose_events l A B A1 A2 md opts |}).
Proof.
  intros Hl H1 H2 H3 H4. unfold_service. simpl.
  rewrite H1. simpl. rewrite H2. simpl. rewrite H3. simpl.
  rewrite Hl. simpl. rewrite lookup_insert_eq. rewrite H4.
  unfold compose_events. norm_events. reflexivity.
Qed.

Lemma composeImages_Ok_inv eng A B l w out w' :
  composeImages eng A B l w = (Ok out, w') ->
  exists opts A1 md A2,
    heap w !! l = Some opts
    /\ toBuffer eng A [OpPng] = Ok A1
    /\ metadata eng B = Ok md
    /\ toBuffer eng A1
         [OpResizeWith (centre_resize (md_width md) (md_height md))] = Ok A2
    /\ toBuffer eng A2 [OpComposite [set_input (InputBuffer B) opts]] = Ok out.
Proof.
  unfold_service. simpl.
  destruct (toBuffer eng A [OpPng]) as [A1|] eqn:H1; simpl; [|discriminate].
  destruct (metadata eng B) as [md|] eqn:H2; simpl; [|discriminate].
  destruct (toBuffer eng A1 _) as [A2|] eqn:H3; simpl; [|discriminate].
  destruct (heap w !! l) as [opts|] eqn:Hl; simpl; [|discriminate].
  rewrite lookup_insert_eq.
  destruct (toBuffer eng A2 _) as [o|] eqn:H4; simpl; [|discriminate].
  intros E. injection E as -> _.
  exists opts, A1, md, A2. repeat split; assumption.
Qed.

(** C1. Compose runs five steps in this order: it re-encodes A as PNG,
    reads B's metadata, resizes the re-encoded A to B's width and height
    with position 'centre', assigns B to the [input] field of the caller's
    composite options, and runs one composite of those options over the
    resized A, whose buffer it returns.  Stated as an equivalence: the call
    returns [out] and leaves the world [w'] exactly when the four codec
    calls succeed in turn, each on the output of the one before, and [w']
    records the seven events in that order with the options updated. *)
Theorem composeImages_steps eng A B l opts w out w' :
  heap w !! l = Some opts ->
  composeImages eng A B l w = (Ok out, w') <->
  exists A1 md A2,
    toBuffer eng A [OpPng] = Ok A1
    /\ metadata eng B = Ok md
    /\ toBuffer eng A1
         [OpResizeWith {| ro_width := md_width md; ro_height := md_height md;
                          ro_fit := None;
                          ro_position := Some (PosStr "centre");
                          ro_background := None; ro_kernel := None;
                          ro_withoutEnlargement := None;
                          ro_withoutReduction := None;
                          ro_fastShrinkOnLoad := None |}] = Ok A2
    /\ toBuffer eng A2 [OpComposite [set_input (InputBuffer B) opts]] = Ok out
    /\ w' = {| heap := <[l := set_input (InputBuffer B) opts]> (heap w);
               files := files w;
               events := events w ++
                 [EvLog LDebug "composing images";
                  EvCall (CallToBuffer A [OpPng]);
                  EvLog LDebug "getting image metadata";
                  EvCall (CallMetadata B);
                  EvCall (CallToBuffer A1
                    [OpResizeWith
                       {| ro_width := md_width md; ro_height := md_height md;
                          ro_fit := None;
                          ro_position := Some (PosStr "centre");
                          ro_background := None; ro_kernel := None;
                          ro_withoutEnlargement := None;
                          ro_withoutReduction := None;
                          ro_fastShrinkOnLoad := None |}]);
                  EvSetInput l (InputBuffer B);
                  EvCall (CallToBuffer A2
                    [OpComposite [set_input (InputBuffer B) opts]])] |}.
Proof.
  intros Hl. split.
  - intros Hrun.
    destruct (composeImages_Ok_inv _ _ _ _ _ _ _ Hrun)
      as (opts' & A1 & md & A2 & Hl' & H1 & H2 & H3 & H4).
    assert (opts' = opts) as -> by congruence.
    exists A1, md, A2. repeat split; try assumption.
    pose proof (composeImages_run eng A B l opts w A1 md A2 out Hl H1 H2 H3 H4)
      as Hfull.
    rewrite Hrun in Hfull. injection Hfull as ->. reflexivity.
  - intros (A1 & md & A2 & H1 & H2 & H3 & H4 & ->).
    exact (composeImages_run eng A B l opts w A1 md A2 out Hl H1 H2 H3 H4).
Qed.

Lemma composeImages_steps_witness :
  composeImages Bitmap.codec Bitmap.imageA Bitmap.imageB 1%positive
    Bitmap.world0
  = (Ok [Byte.x00; Byte.x03; Byte.x01; Byte.x07; Byte.x0a; Byte.x09],
     {| heap := {[ 1%positive :=
                   set_input (InputBuffer Bitmap.imageB) Bitmap.plain_overlay ]};
        files := ∅;
        events := compose_events 1%positive Bitmap.imageA Bitmap.imageB
                    [Byte.x00; Byte.x02; Byte.x02;
                     Byte.x0a; Byte.x14; Byte.x1e; Byte.x28]
                    [Byte.x00; Byte.x03; Byte.x01;
                     Byte.x0a; Byte.x0a; Byte.x14]
                    {| md_format := Some "png";
                       md_width := Some (num_of_Z 3);
                       md_height := Some (num_of_Z 1);
                       md_channels := Some (num_of_Z 1);
                       md_hasAlpha := Some false |}
                    Bitmap.plain_overlay |}).
Proof.
  apply (proj2 (composeImages_steps Bitmap.codec Bitmap.imageA Bitmap.imageB
                  1%positive Bitmap.plain_overlay Bitmap.world0 _ _
                  ltac:(reflexivity))).
  eexists _, _, _.
  split; [reflexivity|]. split; [reflexivity|].
  split; [reflexivity|]. split; [reflexivity|].
  reflexivity.
Defined.

(** ** The reference codec meets the assumptions *)

Module BitmapFacts.

Import Bitmap.

Lemma header_encode b r : header b = Ok r -> b = encode r /\ is_Some (fmt_name (fmt r)).
Proof.
  unfold header. destruct b as [|f [|w [|h d]]]; try discriminate.
  destruct (fmt_name f) eqn:Hf; [|discriminate].
  intros E. injection E as <-. simpl. rewrite Hf. eauto.
Qed.

Lemma decode_header b r : decode b = Ok r -> header b = Ok r.
Proof.
  unfold decode. destruct (header b); [|discriminate].
  case_decide; [|discriminate]. congruence.
Qed.

Lemma decode_length b r :
  decode b = Ok r ->
  length (data r) = nat_of_byte (cols r) * nat_of_byte (lines r).
Proof.
  unfold decode. destruct (header b); [|discriminate].
  case_decide; [|discriminate]. congruence.
Qed.

Lemma header_of_encode r :
  is_Some (fmt_name (fmt r)) -> header (encode r) = Ok r.
Proof.
  intros [s Hs]. unfold header, encode. rewrite Hs. destruct r; reflexivity.
Qed.

Lemma byte_of_num_sound x b : byte_of_num x = Some b -> num_of_byte b = x.
Proof.
  unfold byte_of_num. intros H. apply find_some in H as [_ H].
  apply bool_decide_eq_true in H. exact H.
Qed.

Lemma single_op b op out :
  run_pipeline b [op] = Ok out ->
  exists r r', decode b = Ok r /\ apply_op op r = Ok r' /\ out = encode r'.
Proof.
  unfold run_pipeline. destruct (decode b) as [r|]; [|discriminate].
  simpl. destruct (apply_op op r) as [r'|] eqn:Hop; [|discriminate].
  intros E. injection E as <-. exists r, r'. auto.
Qed.

Lemma dimensions_of_encode r :
  is_Some (fmt_name (fmt r)) ->
  has_dimensions codec (encode r) (num_of_byte (cols r)) (num_of_byte (lines r)).
Proof.
  intros Hf. unfold has_dimensions. cbn [metadata codec]. unfold read_metadata.
  rewrite (header_of_encode r Hf). eexists. split; [reflexivity|]. split; reflexivity.
Qed.

Lemma has_dimensions_header b r w h :
  header b = Ok r -> has_dimensions codec b w h ->
  w = num_of_byte (cols r) /\ h = num_of_byte (lines r).
Proof.
  intros Hh (md & Hm & Hw & Hhh). cbn [metadata codec] in Hm.
  unfold read_metadata in Hm.
  rewrite Hh in Hm. injection Hm as <-.
  cbn [md_width md_height] in *. split; congruence.
Qed.

Lemma has_format_header b r f :
  header b = Ok r -> has_format codec b f -> fmt_name (fmt r) = Some f.
Proof.
  intros Hh (md & Hm & Hf). cbn [metadata codec] in Hm.
  unfold read_metadata in Hm.
  rewrite Hh in Hm. injection Hm as <-. exact Hf.
Qed.

Lemma format_of_encode r f :
  fmt_name (fmt r) = Some f -> has_format codec (encode r) f.
Proof.
  intros Hf. unfold has_format. cbn [metadata codec]. unfold read_metadata.
  rewrite (header_of_encode r) by eauto. eexists. split; [reflexivity|]. exact Hf.
Qed.

Lemma resize_shape ow oh r r' :
  resize ow oh r = Ok r' ->
  fmt r' = fmt r
  /\ (forall w, ow = Some w -> num_of_byte (cols r') = w)
  /\ (forall h, oh = Some h -> num_of_byte (lines r') = h).
Proof.
  unfold resize.
  destruct ow as [w|], oh as [h|];
    repeat match goal with
    | |- context [byte_of_num ?x] =>
        let E := fresh "E" in destruct (byte_of_num x) eqn:E
    end; try discriminate;
    intros H; injection H as <-; simpl;
    (split; [reflexivity|]); split; intros ? [=]; subst;
    auto using byte_of_num_sound.
Qed.

Lemma overlays_shape ovs r r' :
  overlays ovs r = Ok r' ->
  fmt r' = fmt r /\ cols r' = cols r /\ lines r' = lines r.
Proof.
  revert r. induction ovs as [|ov ovs IH]; intros r; simpl.
  - intros [= <-]. auto.
  - destruct (overlay ov r) as [r1|] eqn:Hov; [|discriminate].
    intros H. apply IH in H as (-> & -> & ->).
    unfold overlay in Hov.
    destruct (input ov) as [[ob|]|]; try discriminate.
    destruct (decode ob); [|discriminate].
    case_decide; [|discriminate].
    injection Hov as <-. auto.
Qed.

Lemma apply_resize o r :
  apply_op (OpResizeWith o) r = resize (ro_width o) (ro_height o) r.
Proof. reflexivity. Qed.

Lemma apply_composite ovs r : apply_op (OpComposite ovs) r = overlays ovs r.
Proof. reflexivity. Qed.

Lemma apply_extract reg r : apply_op (OpExtract reg) r = extract reg r.
Proof. reflexivity. Qed.

Lemma codec_resize : resize_yields_dimensions codec.
Proof.
  intros b w h out H. cbn [toBuffer codec] in H.
  apply single_op in H as (r & r' & Hd & Hop & ->).
  rewrite apply_resize in Hop.
  apply decode_header, header_encode in Hd as [_ Hf].
  apply resize_shape in Hop as (Hfmt & Hw & Hh).
  rewrite <- (Hw w eq_refl), <- (Hh h eq_refl).
  apply dimensions_of_encode. rewrite Hfmt. exact Hf.
Qed.

Lemma codec_composite : composite_keeps_dimensions codec.
Proof.
  intros b images out w h H Hdim. cbn [toBuffer codec] in H.
  apply single_op in H as (r & r' & Hd & Hop & ->).
  rewrite apply_composite in Hop.
  apply decode_header in Hd.
  destruct (has_dimensions_header _ _ _ _ Hd Hdim) as [-> ->].
  apply header_encode in Hd as [_ Hf].
  apply overlays_shape in Hop as (Hfmt & Hc & Hl).
  rewrite <- Hc, <- Hl. apply dimensions_of_encode. rewrite Hfmt. exact Hf.
Qed.

Lemma codec_png : png_yields_png codec.
Proof.
  intros b out H. cbn [toBuffer codec] in H.
  apply single_op in H as (r & r' & _ & Hop & ->).
  injection Hop as <-. apply format_of_encode. reflexivity.
Qed.

Lemma codec_png_kept : png_is_kept codec.
Proof.
  split; intros b x out H Hpng; cbn [toBuffer codec] in H;
    apply single_op in H as (r & r' & Hd & Happ & ->);
    apply decode_header in Hd;
    pose proof (has_format_header _ _ _ Hd Hpng) as Hf;
    apply format_of_encode.
  - rewrite apply_resize in Happ.
    apply resize_shape in Happ as (-> & _). exact Hf.
  - rewrite apply_composite in Happ.
    apply overlays_shape in Happ as (-> & _). exact Hf.
Qed.

Lemma codec_extract : extract_checks_bounds codec.
Proof.
  intros b w h reg Hdim Hex. cbn [toBuffer codec]. unfold run_pipeline.
  destruct (decode b) as [r|e] eqn:Hd; [|eauto].
  apply decode_header in Hd.
  destruct (has_dimensions_header _ _ _ _ Hd Hdim) as [-> ->].
  cbn [apply_ops]. rewrite apply_extract. unfold extract. rewrite Hex.
  unfold failure. eauto.
Qed.

(** Cutting rows and gluing them back. *)

Lemma chunks_length w n d : length (chunks w n d) = n.
Proof. revert d. induction n; intros d; simpl; auto. Qed.

Lemma chunks_rect w n d :
  length d = w * n -> Forall (fun row => length row = w) (chunks w n d).
Proof.
  revert d. induction n as [|n IH]; intros d Hd; simpl; constructor.
  - rewrite length_take. lia.
  - apply IH. rewrite length_drop. lia.
Qed.

Lemma chunks_concat w (rs : Raster) :
  Forall (fun row => length row = w) rs ->
  chunks w (length rs) (concat rs) = rs.
Proof.
  induction 1 as [|row rs Hrow _ IH]; simpl; [reflexivity|].
  rewrite take_app_length' by (symmetry; exact Hrow).
  rewrite drop_app_length' by (symmetry; exact Hrow).
  rewrite IH. reflexivity.
Qed.

Lemma concat_rect_length w (rs : Raster) :
  Forall (fun row => length row = w) rs ->
  length (concat rs) = w * length rs.
Proof.
  induction 1 as [|row rs Hrow _ IH]; simpl; [lia|].
  rewrite length_app, IH, Hrow. lia.
Qed.

(** Replacing the rows of a decoded image by as many rows of the same
    width gives an image that decodes to those rows. *)
Lemma pixels_with_rows r (rs : Raster) :
  is_Some (fmt_name (fmt r)) ->
  length rs = nat_of_byte (lines r) ->
  Forall (fun row => length row = nat_of_byte (cols r)) rs ->
  pixels (encode (with_rows r rs)) = Some rs.
Proof.
  intros Hf Hn Hrect. unfold pixels, decode.
  rewrite header_of_encode by exact Hf. simpl.
  rewrite (concat_rect_length _ _ Hrect), Hn.
  rewrite decide_True by reflexivity.
  unfold rows. simpl. rewrite <- Hn. rewrite (chunks_concat _ _ Hrect).
  reflexivity.
Qed.

Lemma codec_mirrors : mirrors_exactly codec pixels.
Proof.
  intros b rs Hpx. unfold pixels in Hpx.
  destruct (decode b) as [r|] eqn:Hd; [|discriminate].
  injection Hpx as <-.
  pose proof (decode_length _ _ Hd) as Hlen.
  pose proof (chunks_rect _ _ _ Hlen) as Hrect. fold (rows r) in Hrect.
  assert (length (rows r) = nat_of_byte (lines r)) as Hn
    by apply chunks_length.
  apply decode_header in Hd as Hh. apply header_encode in Hh as [_ Hf].
  cbn [toBuffer codec]. unfold run_pipeline. rewrite Hd.
  cbn [apply_ops apply_op]. split; eexists; split;
    try reflexivity; apply pixels_with_rows; try exact Hf.
  - rewrite length_rev. exact Hn.
  - apply Forall_rev. exact Hrect.
  - rewrite length_map. exact Hn.
  - clear Hn Hlen. induction Hrect as [|row rs Hrow _ IH]; simpl;
      constructor; [rewrite length_rev; exact Hrow | exact IH].
Qed.

Lemma png_pixels_with_rows r (rs : Raster) :
  fmt r = Byte.x00 ->
  length rs = nat_of_byte (lines r) ->
  Forall (fun row => length row = nat_of_byte (cols r)) rs ->
  png_pixels (lossy_encode (with_rows r rs)) = Some rs.
Proof.
  intros Hf Hn Hrect.
  assert (is_Some (fmt_name (fmt r))) as Hsome by (rewrite Hf; eauto).
  pose proof (pixels_with_rows r rs Hsome Hn Hrect) as Hpx.
  unfold lossy_encode. cbn [fmt with_rows]. rewrite Hf.
  change (Byte.eqb Byte.x00 Byte.x01) with false. cbv iota.
  unfold pixels in Hpx. unfold png_pixels.
  destruct (decode (encode (with_rows r rs))) as [r'|] eqn:Hd;
    [|discriminate].
  apply decode_header in Hd as Hh.
  rewrite header_of_encode in Hh by exact Hsome.
  injection Hh as <-. cbn [fmt with_rows]. rewrite Hf.
  change (Byte.eqb Byte.x00 Byte.x00) with true. exact Hpx.
Qed.

(** The lossy codec mirrors pngs exactly. *)
Lemma lossy_codec_mirrors_png : mirrors_exactly lossy_codec png_pixels.
Proof.
  intros b rs Hpx. unfold png_pixels in Hpx.
  destruct (decode b) as [r|] eqn:Hd; [|discriminate].
  destruct (Byte.eqb (fmt r) Byte.x00) eqn:Hfmt; [|discriminate].
  apply Byte.byte_dec_bl in Hfmt.
  injection Hpx as <-.
  pose proof (decode_length _ _ Hd) as Hlen.
  pose proof (chunks_rect _ _ _ Hlen) as Hrect. fold (rows r) in Hrect.
  assert (length (rows r) = nat_of_byte (lines r)) as Hn
    by apply chunks_length.
  cbn [toBuffer lossy_codec]. unfold lossy_pipeline. rewrite Hd.
  cbn [apply_ops apply_op]. split; eexists; split;
    try reflexivity; apply png_pixels_with_rows; try exact Hfmt.
  - rewrite length_rev. exact Hn.
  - apply Forall_rev. exact Hrect.
  - rewrite length_map. exact Hn.
  - clear Hn Hlen. induction Hrect as [|row rs Hrow _ IH]; simpl;
      constructor; [rewrite length_rev; exact Hrow | exact IH].
Qed.

End BitmapFacts.

(** C2. Whenever Compose succeeds on a decodable B, the buffer it returns
    has B's width and height, whatever A is.  The codec is assumed to
    resize to exactly the requested dimensions and to composite at the
    dimensions of the base image. *)
Theorem composeImages_dimensions eng A B l w out w' wB hB :
  resize_yields_dimensions eng ->
  composite_keeps_dimensions eng ->
  has_dimensions eng B wB hB ->
  composeImages eng A B l w = (Ok out, w') ->
  has_dimensions eng out wB hB.
Proof.
  intros Hresize Hcomposite (mdB & HmdB & HwB & HhB) Hrun.
  apply composeImages_Ok_inv in Hrun
    as (opts & A1 & md & A2 & _ & _ & Hmd & H3 & H4).
  assert (md = mdB) as -> by congruence.
  rewrite HwB, HhB in H3.
  eapply Hcomposite; [exact H4|].
  eapply Hresize. exact H3.
Qed.

Lemma composeImages_dimensions_witness :
  has_dimensions Bitmap.codec
    [Byte.x00; Byte.x03; Byte.x01; Byte.x07; Byte.x0a; Byte.x09]
    (num_of_Z 3) (num_of_Z 1).
Proof.
  apply (composeImages_dimensions Bitmap.codec Bitmap.imageA Bitmap.imageB
           1%positive Bitmap.world0 _
           (snd (composeImages Bitmap.codec Bitmap.imageA Bitmap.imageB
                   1%positive Bitmap.world0))
           _ _ BitmapFacts.codec_resize BitmapFacts.codec_composite).
  - eexists. split; [reflexivity|]. split; reflexivity.
  - reflexivity.
Defined.

(** C10. Whenever Compose succeeds, the buffer it returns is a PNG,
    whatever the formats of A and B: A is re-encoded as PNG first, and the
    resize and the composite that follow set no output format.  The codec
    is assumed to encode PNG on [.png()] and to keep a PNG a PNG through a
    resize or a composite. *)
Theorem composeImages_png eng A B l w out w' :
  png_yields_png eng ->
  png_is_kept eng ->
  composeImages eng A B l w = (Ok out, w') ->
  has_format eng out "png".
Proof.
  intros Hpng [Hresize Hcomposite] Hrun.
  apply composeImages_Ok_inv in Hrun
    as (opts & A1 & md & A2 & _ & H1 & _ & H3 & H4).
  apply (Hcomposite A2 _ out H4).
  apply (Hresize A1 _ A2 H3).
  apply (Hpng A A1 H1).
Qed.

Lemma composeImages_png_witness :
  has_format Bitmap.codec
    [Byte.x00; Byte.x03; Byte.x01; Byte.x07; Byte.x0a; Byte.x09] "png".
Proof.
  apply (composeImages_png Bitmap.codec Bitmap.imageA Bitmap.imageB
           1%positive Bitmap.world0 _
           (snd (composeImages Bitmap.codec Bitmap.imageA Bitmap.imageB
                   1%positive Bitmap.world0))
           BitmapFacts.codec_png BitmapFacts.codec_png_kept).
  reflexivity.
Defined.

(** ** Crop *)

(** C7. When the rectangle exceeds the bounds of the image, Crop raises a
    Processing Failure ("Error cropping image", with the codec's message)
    and returns no buffer; the rectangle reaches the codec as given, there
    is no clamping on the way.  The codec is assumed to refuse such a
    rectangle. *)
Theorem cropImage_out_of_bounds eng I w h R world :
  extract_checks_bounds eng ->
  has_dimensions eng I w h ->
  exceeds w h R = true ->
  (exists m,
     fst (cropImage eng I R world)
     = Err (ThrownHttp {| objectOrError := m;
                          description := "Error cropping image" |}))
  /\ engine_calls (new_events world (snd (cropImage eng I R world)))
     = [CallToBuffer I [OpExtract R]].
Proof.
  intros Hbounds Hdim Hex.
  destruct (Hbounds I w h R Hdim Hex) as [e He].
  unfold cropImage. rewrite one_call_spec. rewrite He.
  cbn [fst snd surfaced]. split.
  - eexists. reflexivity.
  - erewrite new_events_app by reflexivity. reflexivity.
Qed.

Lemma cropImage_out_of_bounds_witness :
  (exists m,
     fst (cropImage Bitmap.codec Bitmap.imageA
            {| left := num_of_Z 1; top := num_of_Z 0;
               width := num_of_Z 2; height := num_of_Z 1 |} Bitmap.world0)
     = Err (ThrownHttp {| objectOrError := m;
                          description := "Error cropping image" |}))
  /\ engine_calls
       (new_events Bitmap.world0
          (snd (cropImage Bitmap.codec Bitmap.imageA
                  {| left := num_of_Z 1; top := num_of_Z 0;
                     width := num_of_Z 2; height := num_of_Z 1 |}
                  Bitmap.world0)))
     = [CallToBuffer Bitmap.imageA
          [OpExtract {| left := num_of_Z 1; top := num_of_Z 0;
                        width := num_of_Z 2; height := num_of_Z 1 |}]].
Proof.
  apply (cropImage_out_of_bounds Bitmap.codec Bitmap.imageA
           (num_of_Z 2) (num_of_Z 2) _ Bitmap.world0
           BitmapFacts.codec_extract).
  - eexists. split; [reflexivity|]. split; reflexivity.
  - reflexivity.
Defined.

(** ** Flips *)

Lemma flip_once eng (pixels : Buffer -> option Raster) b rows w :
  mirrors_exactly eng pixels ->
  pixels b = Some rows ->
  (exists out w',
     verticalFlipImage eng b w = (Ok out, w')
     /\ pixels out = Some (rev rows))
  /\ (exists out w',
        horizontalFlipImage eng b w = (Ok out, w')
        /\ pixels out = Some (map (@rev Byte.byte) rows)).
Proof.
  intros Hm Hpx.
  destruct (Hm b rows Hpx) as [(o1 & Hr1 & Hp1) (o2 & Hr2 & Hp2)].
  unfold verticalFlipImage, horizontalFlipImage.
  rewrite !one_call_spec, Hr1, Hr2. cbn [surfaced].
  split; eexists _, _; split; [reflexivity | exact Hp1 | reflexivity | exact Hp2].
Qed.

Lemma map_rev_rev (rows : Raster) :
  map (@rev Byte.byte) (map (@rev Byte.byte) rows) = rows.
Proof.
  induction rows as [|row rows IH]; simpl; [reflexivity|].
  rewrite rev_involutive, IH. reflexivity.
Qed.

(** C8, the claim as stated fails: a flip re-encodes its result in the
    format of its input, so on a format the codec writes with loss the
    pixels are not kept.  With the lossy jpeg encoder, two vertical flips
    of the 2 by 2 jpeg [imageA] succeed and give other pixels. *)
Lemma flip_twice_loses_pixels :
  Bitmap.pixels Bitmap.imageA
  = Some [[Byte.x0a; Byte.x14]; [Byte.x1e; Byte.x28]]
  /\ exists I1 w1 I2 w2,
       verticalFlipImage Bitmap.lossy_codec Bitmap.imageA Bitmap.world0
       = (Ok I1, w1)
       /\ verticalFlipImage Bitmap.lossy_codec I1 w1 = (Ok I2, w2)
       /\ Bitmap.pixels I2
          = Some [[Byte.x08; Byte.x14]; [Byte.x1c; Byte.x28]]
       /\ Bitmap.pixels I2 <> Bitmap.pixels Bitmap.imageA.
Proof.
  split; [reflexivity|].
  eexists _, _, _, _.
  split; [reflexivity|]. split; [reflexivity|].
  split; [reflexivity|]. discriminate.
Qed.

(** C8, as amended.  On every image of a kind that the codec mirrors
    without loss ([pixels] decodes the images of that kind: those in a
    format it re-encodes exactly), flipping vertically twice gives back a
    buffer with the same pixels, and so does flipping horizontally
    twice. *)
Theorem flip_twice_identity eng (pixels : Buffer -> option Raster) I rows w :
  mirrors_exactly eng pixels ->
  pixels I = Some rows ->
  (exists I1 w1 I2 w2,
     verticalFlipImage eng I w = (Ok I1, w1)
     /\ verticalFlipImage eng I1 w1 = (Ok I2, w2)
     /\ pixels I2 = pixels I)
  /\ (exists I1 w1 I2 w2,
        horizontalFlipImage eng I w = (Ok I1, w1)
        /\ horizontalFlipImage eng I1 w1 = (Ok I2, w2)
        /\ pixels I2 = pixels I).
Proof.
  intros Hm Hpx. rewrite Hpx. split.
  - destruct (flip_once eng pixels I rows w Hm Hpx)
      as [(I1 & w1 & Hrun1 & Hp1) _].
    destruct (flip_once eng pixels I1 (rev rows) w1 Hm Hp1)
      as [(I2 & w2 & Hrun2 & Hp2) _].
    exists I1, w1, I2, w2. rewrite rev_involutive in Hp2. auto.
  - destruct (flip_once eng pixels I rows w Hm Hpx)
      as [_ (I1 & w1 & Hrun1 & Hp1)].
    destruct (flip_once eng pixels I1 _ w1 Hm Hp1)
      as [_ (I2 & w2 & Hrun2 & Hp2)].
    exists I1, w1, I2, w2. rewrite map_rev_rev in Hp2. auto.
Qed.

Lemma flip_twice_identity_witness :
  (exists I1 w1 I2 w2,
     verticalFlipImage Bitmap.lossy_codec Bitmap.imageC Bitmap.world0
     = (Ok I1, w1)
     /\ verticalFlipImage Bitmap.lossy_codec I1 w1 = (Ok I2, w2)
     /\ Bitmap.png_pixels I2 = Bitmap.png_pixels Bitmap.imageC)
  /\ (exists I1 w1 I2 w2,
        horizontalFlipImage Bitmap.lossy_codec Bitmap.imageC Bitmap.world0
        = (Ok I1, w1)
        /\ horizontalFlipImage Bitmap.lossy_codec I1 w1 = (Ok I2, w2)
        /\ Bitmap.png_pixels I2 = Bitmap.png_pixels Bitmap.imageC).
Proof.
  apply (flip_twice_identity Bitmap.lossy_codec Bitmap.png_pixels
           Bitmap.imageC
           [[Byte.x0a; Byte.x14]; [Byte.x1e; Byte.x28]] Bitmap.world0
           BitmapFacts.lossy_codec_mirrors_png).
  reflexivity.
Defined.

(** ** Failures *)

(** C3. When the codec fails, Resize raises one exception, built from the
    codec's message, but its summary is "Error converting image", the very
    summary of Convert Format, not one of its own; likewise the horizontal
    flip raises under the summary of the vertical flip. *)
Theorem resizeImage_failure_summary e b rp path cp w :
  fst (resizeImage (broken_engine e) b rp w)
  = Err (ThrownHttp {| objectOrError := message e;
                       description := "Error converting image" |})
  /\ fst (convertFormat (broken_engine e) path cp w)
     = Err (ThrownHttp {| objectOrError := message e;
                          description := "Error converting image" |})
  /\ fst (horizontalFlipImage (broken_engine e) b w)
     = Err (ThrownHttp {| objectOrError := message e;
                          description := "Error flipping image vertical" |})
  /\ fst (verticalFlipImage (broken_engine e) b w)
     = Err (ThrownHttp {| objectOrError := message e;
                          description := "Error flipping image vertical" |}).
Proof.
  repeat split; try reflexivity.
  unfold convertFormat. destruct (cp_options cp); reflexivity.
Qed.

(** ** Resize *)

(** C4. Resize hands the codec the width and the height only: the options
    field of the resize properties (fit, position, kernel, enlargement and
    reduction policy) never reaches it, so two calls that differ only in
    their options are the same call. *)
Theorem resizeImage_ignores_options eng b width height options1 options2 w :
  resizeImage eng b {| rp_width := width; rp_height := height;
                       rp_options := options1 |} w
  = resizeImage eng b {| rp_width := width; rp_height := height;
                         rp_options := options2 |} w
  /\ engine_calls
       (new_events w
          (snd (resizeImage eng b {| rp_width := width; rp_height := height;
                                     rp_options := options1 |} w)))
     = [CallToBuffer b [OpResize width height]].
Proof.
  split; [reflexivity|].
  unfold resizeImage. rewrite one_call_spec. cbn [snd rp_width rp_height].
  erewrite new_events_app by reflexivity.
  destruct (toBuffer eng b _); reflexivity.
Qed.

(** ** Effects *)

(** C6. Effects runs a threshold pre-pass exactly when a threshold is given
    that is a number other than zero (not absent, not [+0] or [-0], not
    [NaN]); the main chain then runs on the buffer the pre-pass produced,
    otherwise on the input.  The main chain is median, blur, negate,
    grayscale, modulate (brightness, saturation, hue, lightness), tint, in
    that order, where an absent numeric option falls back to median 3,
    blur 0.3, brightness, saturation and lightness 1, hue 0. *)
Theorem setImageEffects_order eng b p w :
  let chain :=
    [OpMedian (num_or (median p) (num_of_Z 3));
     OpBlur (num_or (blur p) num_0_3);
     OpNegate (bool_or_false (negate p));
     OpGrayscale (bool_or_false (grayscale p));
     OpModulate (num_or (brightness p) (num_of_Z 1))
                (num_or (saturation p) (num_of_Z 1))
                (num_or (hue p) (num_of_Z 0))
                (num_or (lightness p) (num_of_Z 1));
     OpTint (tint p)] in
  let result := fst (setImageEffects eng b p w) in
  let calls :=
    engine_calls (new_events w (snd (setImageEffects eng b p w))) in
  (forall fallback, num_or None fallback = fallback)
  /\ match threshold p with
     | Some (S754_finite _ _ _ as t) | Some (S754_infinity _ as t) =>
         let pre := [OpThreshold t (bool_or_false (thresholdGrayscale p))] in
         match toBuffer eng b pre with
         | Ok b' =>
             calls = [CallToBuffer b pre; CallToBuffer b' chain]
             /\ result = surfaced "Error applying image effects"
                           (toBuffer eng b' chain)
         | Err t =>
             calls = [CallToBuffer b pre]
             /\ result = surfaced "Error applying image effects" (Err t)
         end
     | Some (S754_zero _) | Some S754_nan | None =>
         calls = [CallToBuffer b chain]
         /\ result = surfaced "Error applying image effects"
                       (toBuffer eng b chain)
     end.
Proof.
  cbv zeta. split; [reflexivity|].
  unfold setImageEffects, threshold_given, threshold_ops.
  fold (effects_ops p).
  destruct (threshold p) as [[s|s| |s m e]|]; cbn [truthy num_or];
    unfold rethrow, try_catch, bind, log, call, throw, ret, emit;
    cbn [fst snd heap files events];
    repeat match goal with
    | |- context [toBuffer eng ?x ?ops] =>
        lazymatch goal with
        | H : toBuffer eng x ops = _ |- _ => fail
        | _ => destruct (toBuffer eng x ops) eqn:?
        end
    end;
    cbn [fst snd heap files events surfaced];
    (split; [erewrite new_events_app by (norm_events; reflexivity);
             reflexivity
            | reflexivity]).
Qed.

Lemma num_or_falsy_zero s d : num_or (Some (S754_zero s)) d = num_or None d.
Proof. reflexivity. Qed.



(** ** Effects on the caller's world *)

Lemma one_call_untouched (eng : Engine) start summary b ops w :
  untouched w
    (snd (try_catch
            (run log LDebug start;
             call (CallToBuffer b ops) (toBuffer eng b ops))
            (rethrow summary) w)).
Proof. rewrite one_call_spec. split; reflexivity. Qed.

(** C5, the claim as stated fails: Compose writes to the options record it
    was handed.  On the sample images, the record whose [input] the caller
    left unset holds B afterwards. *)
Lemma composeImages_mutates_options :
  heap Bitmap.world0 !! 1%positive = Some Bitmap.plain_overlay
  /\ input Bitmap.plain_overlay = None
  /\ input <$> heap (snd (composeImages Bitmap.codec Bitmap.imageA
                            Bitmap.imageB 1%positive Bitmap.world0))
                 !! 1%positive
     = Some (Some (InputBuffer Bitmap.imageB)).
Proof. repeat split. Qed.

(** C5, as amended.  Apart from logger lines, a method changes nothing the
    caller can reach, with two exceptions.  Store changes the file system by
    the codec's file write to [path/name] and nothing else.  Compose, once
    its png, metadata and resize steps have succeeded, overwrites the
    [input] field of the composite options it was handed with B, whether
    the composite that follows succeeds or not, leaving the other fields of
    that record and every other object as they were; when one of the three
    steps fails, or no options object was passed, every object is left as
    it was. *)
Theorem service_frame eng w :
  (forall b, untouched w (snd (getMetadata eng b w)))
  /\ (forall b, untouched w (snd (getStats eng b w)))
  /\ (forall b path imageName,
        heap (snd (storeImage eng b path imageName w)) = heap w
        /\ files (snd (storeImage eng b path imageName w))
           = snd (toFile eng b (path +:+ "/" +:+ imageName) (files w)))
  /\ (forall path cp, untouched w (snd (convertFormat eng path cp w)))
  /\ (forall b rp, untouched w (snd (resizeImage eng b rp w)))
  /\ (forall path, untouched w (snd (getImageBuffer eng path w)))
  /\ (forall b region, untouched w (snd (cropImage eng b region w)))
  /\ (forall b rp, untouched w (snd (rotateImage eng b rp w)))
  /\ (forall b, untouched w (snd (verticalFlipImage eng b w)))
  /\ (forall b, untouched w (snd (horizontalFlipImage eng b w)))
  /\ (forall b ep, untouched w (snd (setImageEffects eng b ep w)))
  /\ (forall b level, untouched w (snd (trimImage eng b level w)))
  /\ (forall b colour,
        untouched w (snd (setTransparencyBackgroundColor eng b colour w)))
  /\ (forall A B l,
        files (snd (composeImages eng A B l w)) = files w
        /\ heap (snd (composeImages eng A B l w))
           = match toBuffer eng A [OpPng] with
             | Err _ => heap w
             | Ok A1 =>
                 match metadata eng B with
                 | Err _ => heap w
                 | Ok md =>
                     match toBuffer eng A1
                             [OpResizeWith
                                (centre_resize (md_width md) (md_height md))]
                     with
                     | Err _ => heap w
                     | Ok _ =>
                         match heap w !! l with
                         | None => heap w
                         | Some opts =>
                             <[l := {| input := Some (InputBuffer B);
                                       blend := blend opts;
                                       gravity := gravity opts;
                                       ov_top := ov_top opts;
                                       ov_left := ov_left opts;
                                       tile := tile opts;
                                       premultiplied := premultiplied opts;
                                       density := density opts |}]> (heap w)
                         end
                     end
                 end
             end).
Proof.
  repeat apply conj; intros;
    try (unfold resizeImage, cropImage, rotateImage, verticalFlipImage,
           horizontalFlipImage, trimImage, setTransparencyBackgroundColor;
         apply one_call_untouched).
  - frame.
  - frame.
  - unfold_service. cbn [fst snd heap files events].
    destruct (toFile eng b _ (files w)) as [[info|t] fs'];
      cbn [fst snd heap files events]; split; reflexivity.
  - unfold convertFormat. destruct (cp_options cp); frame.
  - frame.
  - unfold setImageEffects.
    destruct (threshold_given ep); [|frame].
    unfold_service. cbn [fst snd heap files events].
    destruct (toBuffer eng b (threshold_ops ep)) as [b'|];
      cbn [fst snd heap files events]; [|split; reflexivity].
    destruct (toBuffer eng b' (effects_ops ep));
      cbn [fst snd heap files events]; split; reflexivity.
  - unfold_service. cbn [fst snd heap files events].
    destruct (toBuffer eng A [OpPng]) as [A1|];
      cbn [fst snd heap files events]; [|auto].
    destruct (metadata eng B) as [md|];
      cbn [fst snd heap files events]; [|auto].
    destruct (toBuffer eng A1 _) as [A2|];
      cbn [fst snd heap files events]; [|auto].
    destruct (heap w !! l) as [opts|] eqn:Hl;
      cbn [fst snd heap files events]; [|auto].
    rewrite lookup_insert_eq.
    destruct (toBuffer eng A2 _); cbn [fst snd heap files events];
      split; reflexivity.
Qed.

(** ** Further properties of the failure path *)

(** No entry point lets an error of the codec through as it is: a method
    that fails raises an [InternalServerErrorException]. *)
Theorem no_raw_error eng w e :
  (forall b, fst (getMetadata eng b w) <> Err (ThrownError e))
  /\ (forall b, fst (getStats eng b w) <> Err (ThrownError e))
  /\ (forall b path imageName,
        fst (storeImage eng b path imageName w) <> Err (ThrownError e))
  /\ (forall path cp, fst (convertFormat eng path cp w) <> Err (ThrownError e))
  /\ (forall b rp, fst (resizeImage eng b rp w) <> Err (ThrownError e))
  /\ (forall path, fst (getImageBuffer eng path w) <> Err (ThrownError e))
  /\ (forall b region, fst (cropImage eng b region w) <> Err (ThrownError e))
  /\ (forall b rp, fst (rotateImage eng b rp w) <> Err (ThrownError e))
  /\ (forall b, fst (verticalFlipImage eng b w) <> Err (ThrownError e))
  /\ (forall b, fst (horizontalFlipImage eng b w) <> Err (ThrownError e))
  /\ (forall b ep, fst (setImageEffects eng b ep w) <> Err (ThrownError e))
  /\ (forall b level, fst (trimImage eng b level w) <> Err (ThrownError e))
  /\ (forall b colour,
        fst (setTransparencyBackgroundColor eng b colour w)
        <> Err (ThrownError e))
  /\ (forall A B l, fst (composeImages eng A B l w) <> Err (ThrownError e)).
Proof.
  repeat apply conj; intros;
    unfold_service; cbn [fst snd heap files events];
    try match goal with
    | |- context [toFile ?e ?b ?p ?fs] => destruct (toFile e b p fs)
    | |- context [cp_options ?cp] => destruct (cp_options cp)
    | |- context [threshold_given ?ep] =>
        destruct (threshold_given ep);
        [destruct (toBuffer eng b (threshold_ops ep))|]
    end;
    cbn [fst snd heap files events];
    repeat match goal with
    | |- context [match ?x with _ => _ end] =>
        destruct x; cbn [fst snd heap files events]
    end; discriminate.
Qed.


(** Trim falls back to the level 10 when the level is absent or zero. *)
Theorem trimImage_fallback eng b w s :
  trimImage eng b None w
  = try_catch
      (run log LDebug "trim image";
       call (CallToBuffer b [OpTrim (num_of_Z 10)])
         (toBuffer eng b [OpTrim (num_of_Z 10)]))
      (rethrow "Error trim image") w
  /\ trimImage eng b (Some (S754_zero s)) w = trimImage eng b None w.
Proof. split; reflexivity. Qed.

(** ** The single-step methods *)

Lemma calls_of_one_call (eng : Engine) start summary b ops w :
  engine_calls
    (new_events w
       (snd (try_catch
               (run log LDebug start;
                call (CallToBuffer b ops) (toBuffer eng b ops))
               (rethrow summary) w)))
  = [CallToBuffer b ops].
Proof.
  rewrite one_call_spec. cbn [snd].
  erewrite new_events_app by reflexivity.
  destruct (toBuffer eng b ops); reflexivity.
Qed.

(** Each of these eleven methods makes exactly one call of the codec, with
    the arguments it was given and nothing else, and hands back what the
    codec produced; when the codec throws, it raises the exception built
    from the message of the thrown error and its own summary.  The body of
    that exception has the error's message as [message] and the summary as
    [error], unless the error's message is empty: the summary is then the
    [message] and there is no [error]. *)
Theorem single_call_methods eng w :
  (forall b,
     fst (getMetadata eng b w)
     = surfaced "Error getting image metadata" (metadata eng b)
     /\ engine_calls (new_events w (snd (getMetadata eng b w)))
        = [CallMetadata b])
  /\ (forall b,
        fst (getStats eng b w)
        = surfaced "Error getting image stats" (stats eng b)
        /\ engine_calls (new_events w (snd (getStats eng b w)))
           = [CallStats b])
  /\ (forall b path imageName,
        fst (storeImage eng b path imageName w)
        = surfaced "Error storing image"
            (fst (toFile eng b (path +:+ "/" +:+ imageName) (files w)))
        /\ engine_calls (new_events w (snd (storeImage eng b path imageName w)))
           = [CallToFile b (path +:+ "/" +:+ imageName)])
  /\ (forall path cp,
        let ops := [OpToFormat (cp_format cp) (cp_options cp)] in
        fst (convertFormat eng path cp w)
        = surfaced "Error converting image"
            (toBufferFromPath eng (files w) path ops)
        /\ engine_calls (new_events w (snd (convertFormat eng path cp w)))
           = [CallToBufferFromPath path ops])
  /\ (forall path,
        fst (getImageBuffer eng path w)
        = surfaced "Error getting image buffer"
            (toBufferFromPath eng (files w) path [])
        /\ engine_calls (new_events w (snd (getImageBuffer eng path w)))
           = [CallToBufferFromPath path []])
  /\ (forall b region,
        fst (cropImage eng b region w)
        = surfaced "Error cropping image" (toBuffer eng b [OpExtract region])
        /\ engine_calls (new_events w (snd (cropImage eng b region w)))
           = [CallToBuffer b [OpExtract region]])
  /\ (forall b rp,
        let ops := [OpRotate (rt_angle rp) (rt_options rp)] in
        fst (rotateImage eng b rp w)
        = surfaced "Error rotating image" (toBuffer eng b ops)
        /\ engine_calls (new_events w (snd (rotateImage eng b rp w)))
           = [CallToBuffer b ops])
  /\ (forall b,
        fst (verticalFlipImage eng b w)
        = surfaced "Error flipping image vertical" (toBuffer eng b [OpFlip])
        /\ engine_calls (new_events w (snd (verticalFlipImage eng b w)))
           = [CallToBuffer b [OpFlip]])
  /\ (forall b,
        fst (horizontalFlipImage eng b w)
        = surfaced "Error flipping image vertical" (toBuffer eng b [OpFlop])
        /\ engine_calls (new_events w (snd (horizontalFlipImage eng b w)))
           = [CallToBuffer b [OpFlop]])
  /\ (forall b level,
        let ops := [OpTrim (num_or level (num_of_Z 10))] in
        fst (trimImage eng b level w)
        = surfaced "Error trim image" (toBuffer eng b ops)
        /\ engine_calls (new_events w (snd (trimImage eng b level w)))
           = [CallToBuffer b ops])
  /\ (forall b colour,
        fst (setTransparencyBackgroundColor eng b colour w)
        = surfaced "Error setting transparency background color"
            (toBuffer eng b [OpFlatten colour])
        /\ engine_calls
             (new_events w
                (snd (setTransparencyBackgroundColor eng b colour w)))
           = [CallToBuffer b [OpFlatten colour]])
  /\ (forall (t : Thrown) summary,
        getResponse {| objectOrError := thrown_message t;
                       description := summary |}
        = match thrown_message t with
          | "" => {| body_message := summary; body_error := None;
                     statusCode := 500 |}
          | m => {| body_message := m; body_error := Some summary;
                    statusCode := 500 |}
          end).
Proof.
  repeat apply conj; intros; cbv zeta;
    try (unfold cropImage, rotateImage, verticalFlipImage,
           horizontalFlipImage, trimImage, setTransparencyBackgroundColor;
         split; [rewrite one_call_spec; reflexivity
                | apply calls_of_one_call]).
  - unfold_service. cbn [fst snd heap files events].
    destruct (metadata eng b); cbn [fst snd heap files events surfaced];
      (split; [reflexivity|]);
      erewrite new_events_app by (norm_events; reflexivity); reflexivity.
  - unfold_service. cbn [fst snd heap files events].
    destruct (stats eng b); cbn [fst snd heap files events surfaced];
      (split; [reflexivity|]);
      erewrite new_events_app by (norm_events; reflexivity); reflexivity.
  - unfold_service. cbn [fst snd heap files events].
    destruct (toFile eng b _ (files w)) as [[info|t] fs'];
      cbn [fst snd heap files events surfaced];
      (split; [reflexivity|]);
      erewrite new_events_app by (norm_events; reflexivity); reflexivity.
  - unfold convertFormat. destruct (cp_options cp);
      unfold_service; cbn [fst snd heap files events];
      destruct (toBufferFromPath eng (files w) path _);
      cbn [fst snd heap files events surfaced];
      (split; [reflexivity|]);
      erewrite new_events_app by (norm_events; reflexivity); reflexivity.
  - unfold_service. cbn [fst snd heap files events].
    destruct (toBufferFromPath eng (files w) path []);
      cbn [fst snd heap files events surfaced];
      (split; [reflexivity|]);
      erewrite new_events_app by (norm_events; reflexivity); reflexivity.
  - unfold getResponse, createBody. cbn [objectOrError description].
    destruct (thrown_message t); reflexivity.
Qed.

(** ** How a composition stops *)

(** A composition stops at its first failing step: the later calls of the
    codec are not made, and the exception is built from the message of the
    caught error and the summary "Error composing images".  The caught
    error is the codec's, except at the metadata step, where it is the
    exception of the metadata method: its message is the codec's, or
    "Error getting image metadata" when the codec's message is empty.  The caller's options are untouched when the
    png, metadata or resize step fails, and when no options object was
    passed (the assignment then raises a TypeError, after three calls of
    the codec).  When it is the composite itself that fails, the [input]
    field of the caller's options has already been overwritten with B. *)
Theorem composeImages_abort eng A B l w :
  let r := composeImages eng A B l w in
  let calls := engine_calls (new_events w (snd r)) in
  let failed m :=
    fst r = Err (ThrownHttp {| objectOrError := m;
                               description := "Error composing images" |}) in
  let png := CallToBuffer A [OpPng] in
  match toBuffer eng A [OpPng] with
  | Err t =>
      failed (thrown_message t) /\ calls = [png] /\ heap (snd r) = heap w
  | Ok A1 =>
      match metadata eng B with
      | Err t =>
          failed (match thrown_message t with
                  | "" => "Error getting image metadata"
                  | m => m
                  end)
          /\ calls = [png; CallMetadata B]
          /\ heap (snd r) = heap w
      | Ok md =>
          let resize :=
            CallToBuffer A1
              [OpResizeWith (centre_resize (md_width md) (md_height md))] in
          match toBuffer eng A1
                  [OpResizeWith (centre_resize (md_width md) (md_height md))]
          with
          | Err t =>
              failed (thrown_message t)
              /\ calls = [png; CallMetadata B; resize]
              /\ heap (snd r) = heap w
          | Ok A2 =>
              match heap w !! l with
              | None =>
                  failed "Cannot set properties of undefined (setting 'input')"
                  /\ calls = [png; CallMetadata B; resize]
                  /\ heap (snd r) = heap w
              | Some opts =>
                  let opts' := set_input (InputBuffer B) opts in
                  match toBuffer eng A2 [OpComposite [opts']] with
                  | Err t =>
                      failed (thrown_message t)
                      /\ calls = [png; CallMetadata B; resize;
                                  CallToBuffer A2 [OpComposite [opts']]]
                      /\ heap (snd r) = <[l := opts']> (heap w)
                  | Ok out =>
                      fst r = Ok out
                      /\ calls = [png; CallMetadata B; resize;
                                  CallToBuffer A2 [OpComposite [opts']]]
                      /\ heap (snd r) = <[l := opts']> (heap w)
                  end
              end
          end
      end
  end.
Proof.
  cbv zeta. unfold_service. cbn [fst snd heap files events].
  destruct (toBuffer eng A [OpPng]) as [A1|];
    cbn [fst snd heap files events];
    [|repeat split;
      erewrite new_events_app by (norm_events; reflexivity); reflexivity].
  destruct (metadata eng B) as [md|t];
    cbn [fst snd heap files events];
    [|split; [|split];
      [unfold thrown_message at 1, exception_message, getResponse, createBody;
       cbn [objectOrError description];
       destruct (thrown_message t); reflexivity
      |erewrite new_events_app by (norm_events; reflexivity); reflexivity
      |reflexivity]].
  destruct (toBuffer eng A1 _) as [A2|];
    cbn [fst snd heap files events];
    [|repeat split;
      erewrite new_events_app by (norm_events; reflexivity); reflexivity].
  destruct (heap w !! l) as [opts|];
    cbn [fst snd heap files events];
    [|repeat split;
      erewrite new_events_app by (norm_events; reflexivity); reflexivity].
  rewrite lookup_insert_eq.
  destruct (toBuffer eng A2 _); cbn [fst snd heap files events];
    repeat split;
    erewrite new_events_app by (norm_events; reflexivity); reflexivity.
Qed.



(** ** What reaches the error log *)




(** ** Values that count as no value *)


(** ** Flips in sequence *)

(** On every decodable image, a vertical flip followed by a horizontal one
    and a horizontal flip followed by a vertical one both succeed and give
    buffers with the same pixels: the rows in reverse order, each reversed.
    The codec is assumed to mirror without loss. *)
Theorem flips_commute eng (pixels : Buffer -> option Raster) I rows w :
  mirrors_exactly eng pixels ->
  pixels I = Some rows ->
  exists I1 w1 I2 w2 J1 v1 J2 v2,
    verticalFlipImage eng I w = (Ok I1, w1)
    /\ horizontalFlipImage eng I1 w1 = (Ok I2, w2)
    /\ horizontalFlipImage eng I w = (Ok J1, v1)
    /\ verticalFlipImage eng J1 v1 = (Ok J2, v2)
    /\ pixels I2 = Some (rev (map (@rev Byte.byte) rows))
    /\ pixels J2 = pixels I2.
Proof.
  intros Hm Hpx.
  destruct (flip_once eng pixels I rows w Hm Hpx)
    as [(I1 & w1 & Hv1 & Hp1) (J1 & v1 & Hh1 & Hq1)].
  destruct (flip_once eng pixels I1 _ w1 Hm Hp1)
    as [_ (I2 & w2 & Hh2 & Hp2)].
  destruct (flip_once eng pixels J1 _ v1 Hm Hq1)
    as [(J2 & v2 & Hv2 & Hq2) _].
  exists I1, w1, I2, w2, J1, v1, J2, v2.
  rewrite Hq2, Hp2, map_rev. auto 10.
Qed.

Lemma flips_commute_witness :
  exists I1 w1 I2 w2 J1 v1 J2 v2,
    verticalFlipImage Bitmap.codec Bitmap.imageA Bitmap.world0 = (Ok I1, w1)
    /\ horizontalFlipImage Bitmap.codec I1 w1 = (Ok I2, w2)
    /\ horizontalFlipImage Bitmap.codec Bitmap.imageA Bitmap.world0
       = (Ok J1, v1)
    /\ verticalFlipImage Bitmap.codec J1 v1 = (Ok J2, v2)
    /\ Bitmap.pixels I2
       = Some (rev (map (@rev Byte.byte)
                      [[Byte.x0a; Byte.x14]; [Byte.x1e; Byte.x28]]))
    /\ Bitmap.pixels J2 = Bitmap.pixels I2.
Proof.
  apply (flips_commute Bitmap.codec Bitmap.pixels Bitmap.imageA
           [[Byte.x0a; Byte.x14]; [Byte.x1e; Byte.x28]] Bitmap.world0
           BitmapFacts.codec_mirrors).
  reflexivity.
Defined.
